(** * Rugby pitch calculator: the click-to-result geometry of [src/app/page.tsx]

    The component keeps one cell ([calculation]) and one reference to the
    rendered SVG ([svgRef]).  A click is converted from client pixels to
    pitch metres, the goal with the smaller distance is selected, and the
    angle subtended by its two posts is computed from a dot product.

    ** Numbers

    A JavaScript [number] is modelled by [JS.number]: an exact real, one of
    the two infinities, or NaN.  The special values follow IEEE 754 as
    ECMAScript prescribes them (0/0 is NaN, x/0 is an infinity, NaN is
    absorbing, every comparison with NaN is false, [Math.min]/[Math.max]
    return NaN when an argument is NaN, [Math.acos] is NaN outside [-1,1]).

    Arithmetic on finite operands is exact real arithmetic.  Binary64
    rounding is not modelled, and neither are its consequences: a finite
    result never overflows to an infinity, a non-zero result never
    underflows to zero, a small term is never absorbed by a large one, and
    there is one zero without a sign (the only denominators of the program
    that can vanish are products of two square roots, which are never the
    negative zero).  The statements below are therefore limited to what
    does not depend on rounding: which formula, branch and special value the
    code produces, symmetries that hold operation by operation, and bounds
    and comparisons with a margin far above one unit in the last place,
    which is why several of them assume a point of the rendered canvas. *)

From Stdlib Require Import Reals Lra Psatz Bool.

Open Scope R_scope.

(* ================================================================== *)
(** ** JavaScript numbers *)
(* ================================================================== *)

Module JS.

Inductive number : Type :=
| Fin (r : R)
| PInf
| NInf
| NaN.

(** The infinity of the given sign ([true] is negative). *)
Definition inf (negative : bool) : number :=
  if negative then NInf else PInf.

Definition Rneg (r : R) : bool :=
  if Rlt_dec r 0 then true else false.

Definition Rltb (a b : R) : bool :=
  if Rlt_dec a b then true else false.

(** [a + b]; exact on finite operands (no rounding, no absorption). *)
Definition add (a b : number) : number :=
  match a, b with
  | NaN, _ | _, NaN => NaN
  | Fin u, Fin v => Fin (u + v)
  | PInf, NInf | NInf, PInf => NaN
  | PInf, _ | _, PInf => PInf
  | NInf, _ | _, NInf => NInf
  end.

(** unary [-a] *)
Definition neg (a : number) : number :=
  match a with
  | Fin u => Fin (- u)
  | PInf => NInf
  | NInf => PInf
  | NaN => NaN
  end.

(** [a - b]; exact on finite operands. *)
Definition sub (a b : number) : number :=
  match a, b with
  | NaN, _ | _, NaN => NaN
  | Fin u, Fin v => Fin (u - v)
  | PInf, PInf | NInf, NInf => NaN
  | PInf, _ | _, NInf => PInf
  | NInf, _ | _, PInf => NInf
  end.

(** [a * b]; exact on finite operands (no rounding, overflow or
    underflow). *)
Definition mul (a b : number) : number :=
  match a, b with
  | NaN, _ | _, NaN => NaN
  | Fin u, Fin v => Fin (u * v)
  | Fin u, PInf | PInf, Fin u =>
      if Req_dec_T u 0 then NaN else inf (Rneg u)
  | Fin u, NInf | NInf, Fin u =>
      if Req_dec_T u 0 then NaN else inf (negb (Rneg u))
  | PInf, PInf | NInf, NInf => PInf
  | PInf, NInf | NInf, PInf => NInf
  end.

(** [a / b]; exact on finite operands with a non-zero divisor. *)
Definition div (a b : number) : number :=
  match a, b with
  | NaN, _ | _, NaN => NaN
  | Fin u, Fin v =>
      if Req_dec_T v 0
      then (if Req_dec_T u 0 then NaN else inf (Rneg u))
      else Fin (u / v)
  | Fin _, PInf | Fin _, NInf => Fin 0
  | PInf, Fin v => inf (Rneg v)
  | NInf, Fin v => inf (negb (Rneg v))
  | PInf, PInf | PInf, NInf | NInf, PInf | NInf, NInf => NaN
  end.

(** [a < b] *)
Definition ltb (a b : number) : bool :=
  match a, b with
  | NaN, _ | _, NaN => false
  | Fin u, Fin v => Rltb u v
  | _, NInf => false
  | PInf, _ => false
  | NInf, _ => true
  | Fin _, PInf => true
  end.

(** [Math.sqrt(a)]; the exact square root of a finite non-negative
    operand. *)
Definition Math_sqrt (a : number) : number :=
  match a with
  | Fin u => if Rlt_dec u 0 then NaN else Fin (sqrt u)
  | PInf => PInf
  | NInf | NaN => NaN
  end.

(** [Math.pow(b, e)] for a literal natural exponent [e]. *)
Fixpoint Math_pow (b : number) (e : nat) : number :=
  match e with
  | O => Fin 1
  | S e' => mul b (Math_pow b e')
  end.

(** [Math.min(a, b)] *)
Definition Math_min (a b : number) : number :=
  match a, b with
  | NaN, _ | _, NaN => NaN
  | Fin u, Fin v => Fin (Rmin u v)
  | NInf, _ | _, NInf => NInf
  | PInf, o | o, PInf => o
  end.

(** [Math.max(a, b)] *)
Definition Math_max (a b : number) : number :=
  match a, b with
  | NaN, _ | _, NaN => NaN
  | Fin u, Fin v => Fin (Rmax u v)
  | PInf, _ | _, PInf => PInf
  | NInf, o | o, NInf => o
  end.

(** [Math.acos(a)]; the exact arccosine on [[-1, 1]], NaN elsewhere. *)
Definition Math_acos (a : number) : number :=
  match a with
  | Fin u =>
      if Rlt_dec u (-1) then NaN
      else if Rlt_dec 1 u then NaN
      else Fin (acos u)
  | PInf | NInf | NaN => NaN
  end.

Definition Math_PI : number := Fin PI.

(** A number that is neither NaN nor an infinity. *)
Definition isFinite (a : number) : Prop :=
  match a with Fin _ => True | _ => False end.

End JS.

Import JS.

Declare Scope js_scope.
Delimit Scope js_scope with js.
Bind Scope js_scope with number.
Infix "+" := add : js_scope.
Infix "-" := sub : js_scope.
Infix "*" := mul : js_scope.
Infix "/" := div : js_scope.
Notation "- a" := (neg a) : js_scope.
Infix "<?" := ltb (at level 70, no associativity) : js_scope.

(* ================================================================== *)
(** ** The component *)
(* ================================================================== *)

(** Rugby pitch dimensions (in metres) and the display scale. *)
Definition PITCH_LENGTH : number := Fin 100.
Definition PITCH_WIDTH : number := Fin 70.
Definition GOAL_POST_WIDTH : number := Fin (56 / 10).
Definition IN_GOAL_DEPTH : number := Fin 10.
Definition SCALE : number := Fin 4.

Record Point : Type := mkPoint { x : number; y : number }.

(** The string union ["top" | "bottom"]. *)
Inductive GoalName : Type := top | bottom.

Record CalculationResult : Type := mkResult {
  distanceToNearestGoal : number;
  angleWidth : number;
  selectedPoint : Point;
  nearestGoal : GoalName
}.

(** What [getBoundingClientRect()] reports and the handlers read. *)
Record DOMRect : Type := mkRect { rect_left : number; rect_top : number }.

(** The part of a mouse event the handler reads. *)
Record MouseEvent : Type := mkEvent { clientX : number; clientY : number }.

(** State of [RugbyPitchApp]: the [calculation] cell of [useState] and the
    result of [svgRef.current?.getBoundingClientRect()], which is [None]
    (JavaScript [undefined]) while [svgRef.current] is [null]. *)
Record App : Type := mkApp {
  calculation : option CalculationResult;
  svgRef : option DOMRect
}.

(** [setCalculation(r)] *)
Definition setCalculation (r : CalculationResult) (s : App) : App :=
  {| calculation := Some r; svgRef := svgRef s |}.

Section Geometry.
Local Open Scope js_scope.

(** Convert SVG coordinates to pitch coordinates (metres). *)
Definition svgToPitch (s : App) (svgX svgY : number) : Point :=
  match svgRef s with
  | None => {| x := Fin 0; y := Fin 0 |}
  | Some rect =>
      let relativeX := svgX - rect_left rect in
      let relativeY := svgY - rect_top rect in
      let pitchX := relativeX / SCALE - PITCH_WIDTH / Fin 2 in
      let pitchY := relativeY / SCALE - IN_GOAL_DEPTH in
      {| x := pitchX; y := pitchY |}
  end.

(** Calculate distance between two points. *)
Definition calculateDistance (p1 p2 : Point) : number :=
  Math_sqrt (Math_pow (x p2 - x p1) 2 + Math_pow (y p2 - y p1) 2).

(** Calculate angle width of goal posts from a point. *)
Definition calculateAngleWidth (point : Point) (goalY : number) : number :=
  let leftPost := {| x := - GOAL_POST_WIDTH / Fin 2; y := goalY |} in
  let rightPost := {| x := GOAL_POST_WIDTH / Fin 2; y := goalY |} in
  let vectorLeft := {| x := x leftPost - x point; y := y leftPost - y point |} in
  let vectorRight := {| x := x rightPost - x point; y := y rightPost - y point |} in
  let dotProduct := x vectorLeft * x vectorRight + y vectorLeft * y vectorRight in
  let magnitudeLeft := Math_sqrt (x vectorLeft * x vectorLeft + y vectorLeft * y vectorLeft) in
  let magnitudeRight := Math_sqrt (x vectorRight * x vectorRight + y vectorRight * y vectorRight) in
  let cosAngle := dotProduct / (magnitudeLeft * magnitudeRight) in
  let angleRadians := Math_acos (Math_max (Fin (-1)) (Math_min (Fin 1) cosAngle)) in
  angleRadians * (Fin 180 / Math_PI).

Definition handlePitchClick (event : MouseEvent) (s : App) : App :=
  match svgRef s with
  | None => s
  | Some rect =>
      let relativeX := clientX event - rect_left rect in
      let relativeY := clientY event - rect_top rect in
      let pitchPoint :=
        {| x := relativeX / SCALE - PITCH_WIDTH / Fin 2;
           y := relativeY / SCALE - IN_GOAL_DEPTH |} in
      let topGoalY := PITCH_LENGTH in
      let bottomGoalY := Fin 0 in
      let distanceToTop := calculateDistance pitchPoint {| x := Fin 0; y := topGoalY |} in
      let distanceToBottom := calculateDistance pitchPoint {| x := Fin 0; y := bottomGoalY |} in
      let nearestGoal := if distanceToTop <? distanceToBottom then top else bottom in
      let nearestGoalY := match nearestGoal with top => topGoalY | bottom => bottomGoalY end in
      let distanceToNearestGoal := Math_min distanceToTop distanceToBottom in
      let angleWidth := calculateAngleWidth pitchPoint nearestGoalY in
      setCalculation
        {| distanceToNearestGoal := distanceToNearestGoal;
           angleWidth := angleWidth;
           selectedPoint := pitchPoint;
           nearestGoal := nearestGoal |} s
  end.

(** Convert pitch coordinates back to SVG coordinates for display. *)
Definition pitchToSvg (pitchPoint : Point) : Point :=
  {| x := (x pitchPoint + PITCH_WIDTH / Fin 2) * SCALE;
     y := (y pitchPoint + IN_GOAL_DEPTH) * SCALE |}.

Definition svgWidth : number := PITCH_WIDTH * SCALE.
Definition svgHeight : number := (PITCH_LENGTH + Fin 2 * IN_GOAL_DEPTH) * SCALE.

(** The centre [(cx, cy)] of the "selected point" circle, which is
    rendered only while [calculation] holds a result. *)
Definition selectedPointMarker (s : App) : option Point :=
  match calculation s with
  | Some c => Some {| x := x (pitchToSvg (selectedPoint c));
                      y := y (pitchToSvg (selectedPoint c)) |}
  | None => None
  end.

(** The attributes [x], [y], [width] and [height] of an SVG [<rect>]. *)
Record SvgRect : Type := mkSvgRect {
  rect_x : number; rect_y : number; rect_width : number; rect_height : number
}.

(** The two "goal posts" bars, in the order of the markup: the one on the
    goal line pitch-y = 0 and the one on the goal line pitch-y =
    [PITCH_LENGTH]. *)
Definition goalPostsRectFirst : SvgRect :=
  {| rect_x := (PITCH_WIDTH / Fin 2 - GOAL_POST_WIDTH / Fin 2) * SCALE;
     rect_y := IN_GOAL_DEPTH * SCALE - Fin 2;
     rect_width := GOAL_POST_WIDTH * SCALE;
     rect_height := Fin 4 |}.

Definition goalPostsRectSecond : SvgRect :=
  {| rect_x := (PITCH_WIDTH / Fin 2 - GOAL_POST_WIDTH / Fin 2) * SCALE;
     rect_y := (PITCH_LENGTH + IN_GOAL_DEPTH) * SCALE - Fin 2;
     rect_width := GOAL_POST_WIDTH * SCALE;
     rect_height := Fin 4 |}.

End Geometry.

(* ================================================================== *)
(** ** The parts of the click handler and of the angle computation

    [handlePitchClick] is one inline body in the source.  To speak about
    "the pitch point of a click" and "the result for a pitch point" its two
    halves are named here; [handlePitchClick_split] shows that they compose
    to the handler.  [calculateAngleWidth] is split in the same way into the
    derived cosine and what is done with it ([calculateAngleWidth_split]). *)
(* ================================================================== *)

Section Split.
Local Open Scope js_scope.

(** Lines 77-83: the pitch point derived from the event. *)
Definition clickPoint (rect : DOMRect) (event : MouseEvent) : Point :=
  {| x := (clientX event - rect_left rect) / SCALE - PITCH_WIDTH / Fin 2;
     y := (clientY event - rect_top rect) / SCALE - IN_GOAL_DEPTH |}.

(** The goal line a goal name stands for (lines 86, 87 and 95). *)
Definition goalLineY (g : GoalName) : number :=
  match g with top => PITCH_LENGTH | bottom => Fin 0 end.

(** Lines 90-94: the goal selected for a pitch point. *)
Definition selectGoal (pitchPoint : Point) : GoalName :=
  if calculateDistance pitchPoint {| x := Fin 0; y := PITCH_LENGTH |}
     <? calculateDistance pitchPoint {| x := Fin 0; y := Fin 0 |}
  then top else bottom.

(** Lines 86-106: the record handed to [setCalculation]. *)
Definition computeResult (pitchPoint : Point) : CalculationResult :=
  {| distanceToNearestGoal :=
       Math_min (calculateDistance pitchPoint {| x := Fin 0; y := PITCH_LENGTH |})
                (calculateDistance pitchPoint {| x := Fin 0; y := Fin 0 |});
     angleWidth := calculateAngleWidth pitchPoint (goalLineY (selectGoal pitchPoint));
     selectedPoint := pitchPoint;
     nearestGoal := selectGoal pitchPoint |}.

(** Lines 55-67 of [calculateAngleWidth]: the derived cosine. *)
Definition cosAngle (point : Point) (goalY : number) : number :=
  let leftPost := {| x := - GOAL_POST_WIDTH / Fin 2; y := goalY |} in
  let rightPost := {| x := GOAL_POST_WIDTH / Fin 2; y := goalY |} in
  let vectorLeft := {| x := x leftPost - x point; y := y leftPost - y point |} in
  let vectorRight := {| x := x rightPost - x point; y := y rightPost - y point |} in
  let dotProduct := x vectorLeft * x vectorRight + y vectorLeft * y vectorRight in
  let magnitudeLeft := Math_sqrt (x vectorLeft * x vectorLeft + y vectorLeft * y vectorLeft) in
  let magnitudeRight := Math_sqrt (x vectorRight * x vectorRight + y vectorRight * y vectorRight) in
  dotProduct / (magnitudeLeft * magnitudeRight).

(** Lines 68-70 of [calculateAngleWidth]: the clamp, the arccosine and the
    conversion to degrees, for any value of the cosine. *)
Definition angleOfCosine (cosAngle : number) : number :=
  let angleRadians := Math_acos (Math_max (Fin (-1)) (Math_min (Fin 1) cosAngle)) in
  angleRadians * (Fin 180 / Math_PI).

End Split.

(* ================================================================== *)
(** ** Finite points and the real-valued quantities of the statements *)
(* ================================================================== *)

(** A point with finite coordinates. *)
Definition pt (px py : R) : Point := {| x := Fin px; y := Fin py |}.

(** Euclidean distance [sqrt (dx² + dy²)] between [(px, py)] and [(qx, qy)]. *)
Definition euclid (px py qx qy : R) : R :=
  sqrt ((qx - px)² + (qy - py)²).

(** The x coordinates of the posts: [-GOAL_POST_WIDTH / 2] and
    [GOAL_POST_WIDTH / 2]. *)
Definition leftPostX : R := - (56 / 10) / 2.
Definition rightPostX : R := 56 / 10 / 2.

(** The point [(px, py)] is one of the two posts of the goal line [g]. *)
Definition onPost (px py g : R) : Prop :=
  py = g /\ (px = leftPostX \/ px = rightPostX).

(** The cosine the source derives, for vectors of non-zero length. *)
Definition cosPosts (px py g : R) : R :=
  ((leftPostX - px) * (rightPostX - px) + (g - py) * (g - py)) /
  (sqrt ((leftPostX - px) * (leftPostX - px) + (g - py) * (g - py)) *
   sqrt ((rightPostX - px) * (rightPostX - px) + (g - py) * (g - py))).

(** The angle in degrees, from the clamped cosine. *)
Definition angleDegrees (px py g : R) : R :=
  acos (Rmax (-1) (Rmin 1 (cosPosts px py g))) * (180 / PI).

(* ================================================================== *)
(** ** Properties *)
(* ================================================================== *)

Lemma handlePitchClick_split (event : MouseEvent) (s : App) :
  handlePitchClick event s =
  match svgRef s with
  | None => s
  | Some rect => setCalculation (computeResult (clickPoint rect event)) s
  end.
Proof.
  unfold handlePitchClick, computeResult, selectGoal, goalLineY, clickPoint.
  destruct (svgRef s); reflexivity.
Qed.

Lemma calculateAngleWidth_split (point : Point) (goalY : number) :
  calculateAngleWidth point goalY = angleOfCosine (cosAngle point goalY).
Proof. reflexivity. Qed.

(* ================================================================== *)
(** ** Arithmetic on finite numbers *)
(* ================================================================== *)

Section FiniteArithmetic.
Local Open Scope js_scope.

Lemma add_Fin (u v : R) : Fin u + Fin v = Fin (u + v).
Proof. reflexivity. Qed.

Lemma sub_Fin (u v : R) : Fin u - Fin v = Fin (u - v).
Proof. reflexivity. Qed.

Lemma mul_Fin (u v : R) : Fin u * Fin v = Fin (u * v).
Proof. reflexivity. Qed.

Lemma neg_Fin (u : R) : - Fin u = Fin (- u).
Proof. reflexivity. Qed.

Lemma div_Fin (u v : R) : v <> 0%R -> Fin u / Fin v = Fin (u / v).
Proof.
  intros Hv. unfold div. destruct (Req_dec_T v 0) as [E | _]; [contradiction | reflexivity].
Qed.

Lemma div_zero_zero (u v : R) : u = 0%R -> v = 0%R -> Fin u / Fin v = NaN.
Proof.
  intros Hu Hv. unfold div.
  destruct (Req_dec_T v 0) as [_ | N]; [| contradiction].
  destruct (Req_dec_T u 0) as [_ | N]; [reflexivity | contradiction].
Qed.

Lemma Math_pow_2_Fin (u : R) : Math_pow (Fin u) 2 = Fin u².
Proof. cbn [Math_pow]. rewrite !mul_Fin. f_equal. unfold Rsqr. ring. Qed.

Lemma Math_sqrt_Fin (u : R) : (0 <= u)%R -> Math_sqrt (Fin u) = Fin (sqrt u).
Proof.
  intros Hu. unfold Math_sqrt. destruct (Rlt_dec u 0) as [L | _]; [lra | reflexivity].
Qed.

Lemma Math_min_Fin (u v : R) : Math_min (Fin u) (Fin v) = Fin (Rmin u v).
Proof. reflexivity. Qed.

Lemma Math_max_Fin (u v : R) : Math_max (Fin u) (Fin v) = Fin (Rmax u v).
Proof. reflexivity. Qed.

Lemma Math_acos_Fin (u : R) : (-1 <= u <= 1)%R -> Math_acos (Fin u) = Fin (acos u).
Proof.
  intros [Hl Hh]. unfold Math_acos.
  destruct (Rlt_dec u (-1)) as [L | _]; [lra |].
  destruct (Rlt_dec 1 u) as [L | _]; [lra | reflexivity].
Qed.

Lemma ltb_Fin (u v : R) : (Fin u <? Fin v) = Rltb u v.
Proof. reflexivity. Qed.

Lemma Rltb_true (u v : R) : Rltb u v = true <-> (u < v)%R.
Proof. unfold Rltb. destruct (Rlt_dec u v); split; intros; try lra; congruence. Qed.

Lemma Rltb_false (u v : R) : Rltb u v = false <-> (v <= u)%R.
Proof. unfold Rltb. destruct (Rlt_dec u v); split; intros; try lra; congruence. Qed.

Lemma clamp_bounds (c : R) : (-1 <= Rmax (-1) (Rmin 1 c) <= 1)%R.
Proof.
  split; [apply Rmax_l |].
  apply Rmax_lub; [lra | apply Rmin_l].
Qed.

Lemma clamp_id (c : R) : (-1 <= c <= 1)%R -> Rmax (-1) (Rmin 1 c) = c.
Proof.
  intros [Hl Hh]. rewrite Rmin_right by exact Hh. apply Rmax_right; exact Hl.
Qed.

Lemma radians_to_degrees : Fin 180 / Math_PI = Fin (180 / PI).
Proof. unfold Math_PI. apply div_Fin. apply PI_neq0. Qed.

End FiniteArithmetic.

Create Rewrite HintDb js.
#[local] Hint Rewrite add_Fin sub_Fin mul_Fin neg_Fin Math_pow_2_Fin
  Math_min_Fin Math_max_Fin ltb_Fin : js.

Lemma acos_minus_1 : acos (-1) = PI.
Proof.
  unfold acos. destruct (Rle_dec (-1) (-1)) as [_ | N]; [reflexivity | lra].
Qed.

(* ================================================================== *)
(** ** The handler's functions on finite points *)
(* ================================================================== *)

Lemma calculateDistance_Fin (px py qx qy : R) :
  calculateDistance (pt px py) (pt qx qy) = Fin (euclid px py qx qy).
Proof.
  unfold calculateDistance, pt, euclid. cbn [x y].
  autorewrite with js.
  apply Math_sqrt_Fin.
  apply Rplus_le_le_0_compat; apply Rle_0_sqr.
Qed.

Lemma post_coordinates :
  (- GOAL_POST_WIDTH / Fin 2)%js = Fin leftPostX /\
  (GOAL_POST_WIDTH / Fin 2)%js = Fin rightPostX.
Proof.
  unfold GOAL_POST_WIDTH, leftPostX, rightPostX. rewrite neg_Fin.
  split; apply div_Fin; lra.
Qed.

Lemma sum_squares_zero (a b : R) : a * a + b * b = 0 -> a = 0 /\ b = 0.
Proof. intros H. apply Rplus_sqr_eq_0. exact H. Qed.

Lemma sum_squares_nonneg (a b : R) : 0 <= a * a + b * b.
Proof. apply Rplus_le_le_0_compat; apply Rle_0_sqr. Qed.

(** What [calculateAngleWidth] reduces to on finite inputs: only the
    division, the clamp and the arccosine are left. *)
Lemma calculateAngleWidth_unfold (px py g : R) :
  calculateAngleWidth (pt px py) (Fin g) =
  (Math_acos
     (Math_max (Fin (-1))
        (Math_min (Fin 1)
           (Fin ((leftPostX - px) * (rightPostX - px) + (g - py) * (g - py)) /
            Fin (sqrt ((leftPostX - px) * (leftPostX - px) + (g - py) * (g - py)) *
                 sqrt ((rightPostX - px) * (rightPostX - px) + (g - py) * (g - py))))))
   * Fin (180 / PI))%js.
Proof.
  unfold calculateAngleWidth, pt. cbn [x y].
  destruct post_coordinates as [-> ->].
  rewrite radians_to_degrees.
  autorewrite with js.
  rewrite !Math_sqrt_Fin by apply sum_squares_nonneg.
  autorewrite with js.
  reflexivity.
Qed.

Lemma magnitudes_nonzero (px py g : R) :
  ~ onPost px py g ->
  sqrt ((leftPostX - px) * (leftPostX - px) + (g - py) * (g - py)) *
  sqrt ((rightPostX - px) * (rightPostX - px) + (g - py) * (g - py)) <> 0.
Proof.
  intros Hn Hz. apply Hn. unfold onPost.
  apply Rmult_integral in Hz.
  destruct Hz as [Hz | Hz];
    apply sqrt_eq_0 in Hz; try apply sum_squares_nonneg;
    apply sum_squares_zero in Hz; destruct Hz as [Hx Hy].
  - split; [lra | left; lra].
  - split; [lra | right; lra].
Qed.

Lemma calculateAngleWidth_Fin (px py g : R) :
  ~ onPost px py g ->
  calculateAngleWidth (pt px py) (Fin g) = Fin (angleDegrees px py g).
Proof.
  intros Hn. rewrite calculateAngleWidth_unfold.
  rewrite div_Fin by (apply magnitudes_nonzero; exact Hn).
  autorewrite with js.
  rewrite Math_acos_Fin by apply clamp_bounds.
  autorewrite with js. reflexivity.
Qed.

Lemma calculateAngleWidth_onPost (px py g : R) :
  onPost px py g ->
  calculateAngleWidth (pt px py) (Fin g) = NaN.
Proof.
  intros [Hy Hx]. rewrite calculateAngleWidth_unfold.
  rewrite div_zero_zero.
  - reflexivity.
  - subst py. destruct Hx as [-> | ->]; ring.
  - subst py. destruct Hx as [-> | ->].
    + replace ((leftPostX - leftPostX) * (leftPostX - leftPostX) + (g - g) * (g - g))
        with 0 by ring.
      rewrite sqrt_0. ring.
    + replace ((rightPostX - rightPostX) * (rightPostX - rightPostX) + (g - g) * (g - g))
        with 0 by ring.
      rewrite sqrt_0. ring.
Qed.

Lemma pt_ext (a a' b b' : R) : a = a' -> b = b' -> pt a b = pt a' b'.
Proof. intros -> ->. reflexivity. Qed.

(** The pitch point of a click with finite coordinates and rectangle. *)
Lemma clickPoint_Fin (l t cx cy : R) :
  clickPoint (mkRect (Fin l) (Fin t)) (mkEvent (Fin cx) (Fin cy)) =
  pt ((cx - l) / 4 - 70 / 2) ((cy - t) / 4 - 10).
Proof.
  unfold clickPoint, pt, SCALE, PITCH_WIDTH, IN_GOAL_DEPTH. cbn [clientX clientY rect_left rect_top].
  autorewrite with js. rewrite !div_Fin by lra. autorewrite with js. reflexivity.
Qed.

Lemma svgToPitch_Fin (c : option CalculationResult) (l t sx sy : R) :
  svgToPitch (mkApp c (Some (mkRect (Fin l) (Fin t)))) (Fin sx) (Fin sy) =
  pt ((sx - l) / 4 - 70 / 2) ((sy - t) / 4 - 10).
Proof.
  unfold svgToPitch, pt, SCALE, PITCH_WIDTH, IN_GOAL_DEPTH. cbn [svgRef rect_left rect_top].
  autorewrite with js. rewrite !div_Fin by lra. autorewrite with js. reflexivity.
Qed.

Lemma pitchToSvg_Fin (px py : R) :
  pitchToSvg (pt px py) = pt ((px + 70 / 2) * 4) ((py + 10) * 4).
Proof.
  unfold pitchToSvg, pt, SCALE, PITCH_WIDTH, IN_GOAL_DEPTH. cbn [x y].
  rewrite div_Fin by lra. autorewrite with js. reflexivity.
Qed.

(** The two distances the handler compares, for a finite pitch point. *)
Lemma distanceToTop_Fin (px py : R) :
  calculateDistance (pt px py) {| x := Fin 0; y := PITCH_LENGTH |} =
  Fin (euclid px py 0 100).
Proof. apply (calculateDistance_Fin px py 0 100). Qed.

Lemma distanceToBottom_Fin (px py : R) :
  calculateDistance (pt px py) {| x := Fin 0; y := Fin 0 |} =
  Fin (euclid px py 0 0).
Proof. apply (calculateDistance_Fin px py 0 0). Qed.

Lemma selectGoal_Fin (px py : R) :
  selectGoal (pt px py) =
  if Rltb (euclid px py 0 100) (euclid px py 0 0) then top else bottom.
Proof.
  unfold selectGoal. rewrite distanceToTop_Fin, distanceToBottom_Fin.
  reflexivity.
Qed.

Lemma selectGoal_top (px py : R) :
  selectGoal (pt px py) = top <-> euclid px py 0 100 < euclid px py 0 0.
Proof.
  rewrite selectGoal_Fin, <- Rltb_true.
  destruct (Rltb _ _); split; congruence.
Qed.

Lemma selectGoal_bottom (px py : R) :
  selectGoal (pt px py) = bottom <-> euclid px py 0 0 <= euclid px py 0 100.
Proof.
  rewrite selectGoal_Fin, <- Rltb_false.
  destruct (Rltb _ _); split; congruence.
Qed.

Lemma computeResult_Fin (px py : R) :
  computeResult (pt px py) =
  {| distanceToNearestGoal := Fin (Rmin (euclid px py 0 100) (euclid px py 0 0));
     angleWidth := calculateAngleWidth (pt px py) (goalLineY (selectGoal (pt px py)));
     selectedPoint := pt px py;
     nearestGoal := selectGoal (pt px py) |}.
Proof.
  unfold computeResult. rewrite distanceToTop_Fin, distanceToBottom_Fin.
  reflexivity.
Qed.

(** What a click stores when the rectangle is available. *)
Lemma handlePitchClick_Fin (c : option CalculationResult) (l t cx cy : R) :
  calculation
    (handlePitchClick (mkEvent (Fin cx) (Fin cy))
       (mkApp c (Some (mkRect (Fin l) (Fin t))))) =
  Some (computeResult (pt ((cx - l) / 4 - 70 / 2) ((cy - t) / 4 - 10))).
Proof.
  rewrite handlePitchClick_split. cbn [svgRef setCalculation calculation].
  rewrite clickPoint_Fin. reflexivity.
Qed.

(** Distances from a point of the centre line to a goal midpoint. *)
Lemma euclid_centreline (py g : R) : euclid 0 py 0 g = Rabs (g - py).
Proof.
  unfold euclid.
  replace ((0 - 0)² + (g - py)²) with ((g - py)²) by (unfold Rsqr; ring).
  apply sqrt_Rsqr_abs.
Qed.

(** On the centre line both magnitudes are equal and the cosine is a
    rational function of the squared distance to the goal line. *)
Lemma cosPosts_centreline (py g : R) :
  cosPosts 0 py g =
  ((g - py) * (g - py) - rightPostX * rightPostX) /
  ((g - py) * (g - py) + rightPostX * rightPostX).
Proof.
  unfold cosPosts.
  replace ((leftPostX - 0) * (leftPostX - 0) + (g - py) * (g - py))
    with ((g - py) * (g - py) + rightPostX * rightPostX)
    by (unfold leftPostX, rightPostX; field).
  replace ((rightPostX - 0) * (rightPostX - 0) + (g - py) * (g - py))
    with ((g - py) * (g - py) + rightPostX * rightPostX) by ring.
  rewrite sqrt_sqrt by apply sum_squares_nonneg.
  f_equal. unfold leftPostX, rightPostX. field.
Qed.

Lemma not_onPost_centreline (py g : R) : ~ onPost 0 py g.
Proof.
  unfold onPost, leftPostX, rightPostX. intros [_ [H | H]]; lra.
Qed.

Lemma degrees_of_PI : PI * (180 / PI) = 180.
Proof. field. apply PI_neq0. Qed.

(** The click at pixel [(140, 440)] with the rectangle at [(0, 0)] is the
    midpoint of the goal line y = 100: the handler selects ["top"] at
    distance 0. *)
Example click_on_top_goal (c : option CalculationResult) :
  exists a : number,
    calculation (handlePitchClick (mkEvent (Fin 140) (Fin 440))
                   (mkApp c (Some (mkRect (Fin 0) (Fin 0))))) =
    Some {| distanceToNearestGoal := Fin 0;
            angleWidth := a;
            selectedPoint := pt 0 100;
            nearestGoal := top |}.
Proof.
  eexists. rewrite handlePitchClick_Fin.
  replace (pt ((140 - 0) / 4 - 70 / 2) ((440 - 0) / 4 - 10)) with (pt 0 100)
    by (apply pt_ext; lra).
  rewrite computeResult_Fin.
  assert (Hsel : selectGoal (pt 0 100) = top).
  { apply selectGoal_top. rewrite !euclid_centreline.
    replace (100 - 100) with 0 by lra. replace (0 - 100) with (- (100)) by lra.
    rewrite Rabs_R0, Rabs_Ropp, Rabs_pos_eq; lra. }
  rewrite Hsel. do 2 f_equal. f_equal.
  rewrite !euclid_centreline.
  replace (100 - 100) with 0 by lra. rewrite Rabs_R0.
  apply Rmin_left. apply Rabs_pos.
Qed.

(* ================================================================== *)
(** ** Missing bounding rectangle *)
(* ================================================================== *)

(** C9: when the rendering surface reports no bounding rectangle,
    [svgToPitch] returns the zero point [(0, 0)] for every input. *)
Theorem C9_svgToPitch_without_rect
  (c : option CalculationResult) (svgX svgY : number) :
  svgToPitch {| calculation := c; svgRef := None |} svgX svgY =
  {| x := Fin 0; y := Fin 0 |}.
Proof. reflexivity. Qed.

(** C10: when the bounding rectangle is unavailable at click time,
    [handlePitchClick] returns early: the component state, and with it the
    stored calculation (or its absence), is unchanged, so no result for a
    fallback point is stored. *)
Theorem C10_click_without_rect
  (event : MouseEvent) (c : option CalculationResult) :
  handlePitchClick event {| calculation := c; svgRef := None |} =
  {| calculation := c; svgRef := None |}.
Proof. reflexivity. Qed.

(* ================================================================== *)
(** ** Screen to pitch *)
(* ================================================================== *)

(** C3: for every screen point [(sx, sy)] and origin offset [(l, t)] the
    conversion returns [((sx - l) / 4 - 70 / 2, (sy - t) / 4 - 10)], in
    [svgToPitch] and as the selected point of the click handler; with the
    offset [(0, 0)] the pixel [(140, 40)] is the pitch point [(0, 0)], for
    which the handler stores the goal at y = 0 (["bottom"]), distance 0 and
    an angle width of 180 degrees. *)
Theorem C3_screen_to_pitch
  (c : option CalculationResult) (l t sx sy : R) :
  svgToPitch (mkApp c (Some (mkRect (Fin l) (Fin t)))) (Fin sx) (Fin sy) =
    pt ((sx - l) / 4 - 70 / 2) ((sy - t) / 4 - 10)
  /\ option_map selectedPoint
       (calculation (handlePitchClick (mkEvent (Fin sx) (Fin sy))
                       (mkApp c (Some (mkRect (Fin l) (Fin t)))))) =
     Some (pt ((sx - l) / 4 - 70 / 2) ((sy - t) / 4 - 10))
  /\ svgToPitch (mkApp c (Some (mkRect (Fin 0) (Fin 0)))) (Fin 140) (Fin 40) =
     pt 0 0
  /\ calculation (handlePitchClick (mkEvent (Fin 140) (Fin 40))
                    (mkApp c (Some (mkRect (Fin 0) (Fin 0))))) =
     Some {| distanceToNearestGoal := Fin 0;
             angleWidth := Fin 180;
             selectedPoint := pt 0 0;
             nearestGoal := bottom |}.
Proof.
  split; [apply svgToPitch_Fin |].
  split; [rewrite handlePitchClick_Fin; reflexivity |].
  split; [rewrite svgToPitch_Fin; apply pt_ext; lra |].
  rewrite handlePitchClick_Fin.
  replace (pt ((140 - 0) / 4 - 70 / 2) ((40 - 0) / 4 - 10)) with (pt 0 0)
    by (apply pt_ext; lra).
  rewrite computeResult_Fin.
  assert (Hsel : selectGoal (pt 0 0) = bottom).
  { apply selectGoal_bottom. rewrite !euclid_centreline.
    rewrite !Rminus_0_r, Rabs_R0. apply Rabs_pos. }
  rewrite Hsel. cbn [goalLineY].
  rewrite calculateAngleWidth_Fin by apply not_onPost_centreline.
  do 2 f_equal.
  - f_equal. rewrite !euclid_centreline, !Rminus_0_r, Rabs_R0.
    apply Rmin_right. apply Rabs_pos.
  - f_equal. unfold angleDegrees. rewrite cosPosts_centreline.
    replace (((0 - 0) * (0 - 0) - rightPostX * rightPostX) /
             ((0 - 0) * (0 - 0) + rightPostX * rightPostX)) with (-1)
      by (unfold rightPostX; field).
    rewrite clamp_id by lra.
    rewrite acos_minus_1. apply degrees_of_PI.
Qed.

(** C6: for every screen coordinate [(sx, sy)] and bounding rectangle at
    [(l, t)], [svgToPitch] followed by [pitchToSvg] and by adding the same
    origin offset back returns the original screen coordinate.  Over the
    exact arithmetic of the model the round trip is exact; the tolerance of
    the claim covers the rounding of the four operations per coordinate. *)
Theorem C6_round_trip
  (c : option CalculationResult) (l t sx sy : R) :
  (x (pitchToSvg (svgToPitch (mkApp c (Some (mkRect (Fin l) (Fin t)))) (Fin sx) (Fin sy)))
   + rect_left (mkRect (Fin l) (Fin t)))%js = Fin sx
  /\ (y (pitchToSvg (svgToPitch (mkApp c (Some (mkRect (Fin l) (Fin t)))) (Fin sx) (Fin sy)))
      + rect_top (mkRect (Fin l) (Fin t)))%js = Fin sy.
Proof.
  rewrite svgToPitch_Fin, pitchToSvg_Fin.
  cbn [pt x y rect_left rect_top]. autorewrite with js.
  split; f_equal; field.
Qed.

(* ================================================================== *)
(** ** Nearest goal *)
(* ================================================================== *)

(** C1 fails as stated: the click at pixel [(140, 240)] (offset [(0, 0)])
    is the pitch point [(0, 50)], at distance 50 from both goal midpoints,
    and the handler stores ["bottom"], the goal line at y = 0, with the
    angle computed against goalY = 0; it does not store ["top"], the goal
    line at y = [PITCH_LENGTH]. *)
Lemma C1_tie_counterexample :
  exists r : CalculationResult,
    calculation (handlePitchClick (mkEvent (Fin 140) (Fin 240))
                   (mkApp None (Some (mkRect (Fin 0) (Fin 0))))) = Some r
    /\ selectedPoint r = pt 0 50
    /\ calculateDistance (pt 0 50) (pt 0 0) = Fin 50
    /\ calculateDistance (pt 0 50) (pt 0 100) = Fin 50
    /\ nearestGoal r = bottom
    /\ nearestGoal r <> top
    /\ angleWidth r = calculateAngleWidth (pt 0 50) (Fin 0).
Proof.
  assert (Hsel : selectGoal (pt 0 50) = bottom).
  { apply selectGoal_bottom. rewrite !euclid_centreline.
    replace (0 - 50) with (- (50)) by lra. replace (100 - 50) with 50 by lra.
    rewrite Rabs_Ropp. lra. }
  eexists. split.
  - rewrite handlePitchClick_Fin.
    replace (pt ((140 - 0) / 4 - 70 / 2) ((240 - 0) / 4 - 10)) with (pt 0 50)
      by (apply pt_ext; lra).
    reflexivity.
  - cbn [computeResult selectedPoint nearestGoal angleWidth].
    rewrite Hsel. cbn [goalLineY].
    rewrite !calculateDistance_Fin, !euclid_centreline.
    replace (0 - 50) with (- (50)) by lra. replace (100 - 50) with 50 by lra.
    rewrite Rabs_Ropp, Rabs_pos_eq by lra.
    repeat split; congruence.
Qed.

(** C1, amended: for every pitch point whose distances to the two goal
    midpoints are equal, in particular every point with pitch-y = 100 / 2,
    the handler selects ["bottom"], the goal line at y = 0; ["top"], the goal
    line at y = [PITCH_LENGTH], is selected exactly when its distance is
    strictly less than the distance to the goal at y = 0. *)
Theorem C1_tie_selects_bottom (px py : R) :
  (calculateDistance (pt px py) (pt 0 0) = calculateDistance (pt px py) (pt 0 100) ->
   nearestGoal (computeResult (pt px py)) = bottom
   /\ goalLineY (nearestGoal (computeResult (pt px py))) = Fin 0)
  /\ (py = 100 / 2 ->
      calculateDistance (pt px py) (pt 0 0) = calculateDistance (pt px py) (pt 0 100))
  /\ (nearestGoal (computeResult (pt px py)) = top <->
      euclid px py 0 100 < euclid px py 0 0).
Proof.
  cbn [computeResult nearestGoal].
  split; [| split].
  - rewrite !calculateDistance_Fin. intros E. injection E as E.
    assert (Hsel : selectGoal (pt px py) = bottom)
      by (apply selectGoal_bottom; lra).
    rewrite Hsel. split; reflexivity.
  - intros ->. rewrite !calculateDistance_Fin. f_equal. unfold euclid.
    f_equal. unfold Rsqr. field.
  - apply selectGoal_top.
Qed.

Lemma C1_tie_selects_bottom_witness :
  calculateDistance (pt 0 50) (pt 0 0) = calculateDistance (pt 0 50) (pt 0 100)
  /\ nearestGoal (computeResult (pt 0 50)) = bottom.
Proof.
  assert (E : calculateDistance (pt 0 50) (pt 0 0) =
              calculateDistance (pt 0 50) (pt 0 100)).
  { apply (proj1 (proj2 (C1_tie_selects_bottom 0 50))). lra. }
  split; [exact E |].
  exact (proj1 (proj1 (C1_tie_selects_bottom 0 50) E)).
Defined.

(** C4: for every pitch point, and for the point of every click with a
    bounding rectangle, the stored [distanceToNearestGoal] is the minimum of
    the two Euclidean distances [sqrt (dx² + dy²)] from the point to the goal
    midpoints [(0, 0)] and [(0, 100)], and it is not negative. *)
Theorem C4_distance_is_minimum
  (px py : R) (c : option CalculationResult) (l t cx cy : R) :
  let d := fun p q : R =>
    Rmin (sqrt ((0 - p)² + (0 - q)²)) (sqrt ((0 - p)² + (100 - q)²)) in
  distanceToNearestGoal (computeResult (pt px py)) = Fin (d px py)
  /\ 0 <= d px py
  /\ option_map distanceToNearestGoal
       (calculation (handlePitchClick (mkEvent (Fin cx) (Fin cy))
                       (mkApp c (Some (mkRect (Fin l) (Fin t)))))) =
     Some (Fin (d ((cx - l) / 4 - 70 / 2) ((cy - t) / 4 - 10))).
Proof.
  intros d.
  assert (Hd : forall p q, distanceToNearestGoal (computeResult (pt p q)) = Fin (d p q)).
  { intros p q. rewrite computeResult_Fin. cbn [distanceToNearestGoal].
    unfold d, euclid. rewrite Rmin_comm. reflexivity. }
  split; [apply Hd | split].
  - unfold d. apply Rmin_glb; apply sqrt_pos.
  - rewrite handlePitchClick_Fin. cbn [option_map]. rewrite Hd. reflexivity.
Qed.

(* ================================================================== *)
(** ** Angle width *)
(* ================================================================== *)

(** C2 fails as stated: at the right post of the goal line y = 0, the point
    [(5.6 / 2, 0)], the computation returns NaN, which is no finite number. *)
Lemma C2_post_counterexample :
  calculateAngleWidth {| x := Fin (56 / 10 / 2); y := Fin 0 |} (Fin 0) = NaN
  /\ ~ isFinite (calculateAngleWidth {| x := Fin (56 / 10 / 2); y := Fin 0 |} (Fin 0)).
Proof.
  assert (H : calculateAngleWidth {| x := Fin (56 / 10 / 2); y := Fin 0 |} (Fin 0) = NaN).
  { apply (calculateAngleWidth_onPost rightPostX 0 0).
    split; [reflexivity | right; reflexivity]. }
  split; [exact H |].
  rewrite H. intros F. exact F.
Qed.

(** C2, amended: the computation has no guard for a vector of length zero;
    when the point coincides with a post of the goal line, the cosine is
    0 / 0, the clamp and the arccosine pass NaN on, and the function
    returns NaN. *)
Theorem C2_post_gives_NaN (px py g : R) :
  onPost px py g ->
  calculateAngleWidth (pt px py) (Fin g) = NaN.
Proof. apply calculateAngleWidth_onPost. Qed.

Lemma C2_post_gives_NaN_witness :
  onPost leftPostX 100 100
  /\ calculateAngleWidth (pt leftPostX 100) (Fin 100) = NaN.
Proof.
  assert (H : onPost leftPostX 100 100)
    by (split; [reflexivity | left; reflexivity]).
  split; [exact H | exact (C2_post_gives_NaN leftPostX 100 100 H)].
Defined.

(** C5 fails as stated: at the left post of the goal line y = 100 the
    returned value is NaN, so it is no angle within [0, 180]. *)
Lemma C5_range_counterexample :
  ~ exists a : R,
      calculateAngleWidth (pt leftPostX 100) (Fin 100) = Fin a /\ 0 <= a <= 180.
Proof.
  intros [a [H _]].
  rewrite calculateAngleWidth_onPost in H
    by (split; [reflexivity | left; reflexivity]).
  discriminate H.
Qed.

(** The arccosine of a cosine within [[-1, 1]], in degrees. *)
Lemma degrees_of_clamped (k : R) :
  -1 <= k <= 1 ->
  (Math_acos (Fin k) * (Fin 180 / Math_PI))%js = Fin (acos k * (180 / PI))
  /\ 0 <= acos k * (180 / PI) <= 180.
Proof.
  intros Hk. split.
  - rewrite Math_acos_Fin by exact Hk. rewrite radians_to_degrees. reflexivity.
  - destruct (acos_bound k) as [H0 H1].
    assert (Hf : 0 < 180 / PI)
      by (apply Rdiv_lt_0_compat; [lra | apply PI_RGT_0]).
    split.
    + apply Rmult_le_pos; lra.
    + apply Rle_trans with (PI * (180 / PI)).
      * apply Rmult_le_compat_r; lra.
      * rewrite degrees_of_PI. apply Rle_refl.
Qed.

(** What the clamp, the arccosine and the conversion make of a cosine [c]:
    NaN stays NaN; every other value, above 1, below -1 and the infinities
    included, is first brought to some [k] within [[-1, 1]] and gives an
    angle within [[0, 180]]. *)
Lemma angleOfCosine_cases (c : number) :
  match c with
  | NaN => angleOfCosine c = NaN
  | _ => exists k a : R,
           Math_max (Fin (-1)) (Math_min (Fin 1) c) = Fin k
           /\ -1 <= k <= 1
           /\ angleOfCosine c = Fin a
           /\ a = acos k * (180 / PI)
           /\ 0 <= a <= 180
  end.
Proof.
  assert (G : forall k : R, -1 <= k <= 1 ->
              forall c' : number, Math_max (Fin (-1)) (Math_min (Fin 1) c') = Fin k ->
              exists k' a : R,
                Math_max (Fin (-1)) (Math_min (Fin 1) c') = Fin k'
                /\ -1 <= k' <= 1
                /\ angleOfCosine c' = Fin a
                /\ a = acos k' * (180 / PI)
                /\ 0 <= a <= 180).
  { intros k Hk c' Hc. exists k, (acos k * (180 / PI)).
    destruct (degrees_of_clamped k Hk) as [He Hb].
    unfold angleOfCosine. rewrite Hc.
    repeat split; try assumption; lra. }
  destruct c as [u | | |].
  - apply (G (Rmax (-1) (Rmin 1 u))); [apply clamp_bounds | reflexivity].
  - apply (G (Rmax (-1) 1)); [| reflexivity].
    rewrite Rmax_right by lra. lra.
  - apply (G (-1)); [lra | reflexivity].
  - reflexivity.
Qed.

(** C5, amended: for every point and goal line the cosine handed to the
    arccosine is the derived cosine clamped to [[-1, 1]]: every cosine [c]
    that is a number, above 1, below -1 and the infinities included, is
    brought within [[-1, 1]] and gives an angle within [[0, 180]] degrees,
    while a NaN cosine (0 / 0, as at a post) passes the clamp and the
    result is NaN.  So the returned value is NaN when the derived cosine is
    NaN and an angle within [[0, 180]] otherwise. *)
Theorem C5_angle_clamped_and_bounded (point : Point) (goalY c : number) :
  calculateAngleWidth point goalY = angleOfCosine (cosAngle point goalY)
  /\ match c with
     | NaN => angleOfCosine c = NaN
     | _ => exists k a : R,
              Math_max (Fin (-1)) (Math_min (Fin 1) c) = Fin k
              /\ -1 <= k <= 1
              /\ angleOfCosine c = Fin a
              /\ a = acos k * (180 / PI)
              /\ 0 <= a <= 180
     end
  /\ match cosAngle point goalY with
     | NaN => calculateAngleWidth point goalY = NaN
     | _ => exists a : R,
              calculateAngleWidth point goalY = Fin a /\ 0 <= a <= 180
     end.
Proof.
  split; [reflexivity | split; [apply angleOfCosine_cases |]].
  rewrite calculateAngleWidth_split.
  pose proof (angleOfCosine_cases (cosAngle point goalY)) as H.
  destruct (cosAngle point goalY) as [u | | |]; try exact H;
    destruct H as [k [a [_ [_ [Ha [_ Hb]]]]]]; exists a; split; assumption.
Qed.

(** Mirroring the point about the centre line swaps the two vectors. *)
Lemma mirror_cosPosts (px py g : R) : cosPosts (- px) py g = cosPosts px py g.
Proof.
  unfold cosPosts.
  replace ((leftPostX - - px) * (leftPostX - - px))
    with ((rightPostX - px) * (rightPostX - px))
    by (unfold leftPostX, rightPostX; field).
  replace ((rightPostX - - px) * (rightPostX - - px))
    with ((leftPostX - px) * (leftPostX - px))
    by (unfold leftPostX, rightPostX; field).
  replace ((leftPostX - - px) * (rightPostX - - px))
    with ((leftPostX - px) * (rightPostX - px))
    by (unfold leftPostX, rightPostX; field).
  f_equal. apply Rmult_comm.
Qed.

Lemma mirror_onPost (px py g : R) : onPost (- px) py g <-> onPost px py g.
Proof.
  unfold onPost, leftPostX, rightPostX.
  split; intros [Hy [Hx | Hx]]; (split; [exact Hy | lra]).
Qed.

(** C8: for every point that is not a post of the goal line, negating the
    pitch-x coordinate leaves the computed angle width, a finite number,
    unchanged. *)
Theorem C8_mirror_symmetry (px py g : R) :
  ~ onPost px py g ->
  exists a : R,
    calculateAngleWidth {| x := Fin px; y := Fin py |} (Fin g) = Fin a
    /\ calculateAngleWidth {| x := (- Fin px)%js; y := Fin py |} (Fin g) = Fin a.
Proof.
  intros Hn. exists (angleDegrees px py g).
  split; [apply calculateAngleWidth_Fin; exact Hn |].
  rewrite neg_Fin.
  change {| x := Fin (- px); y := Fin py |} with (pt (- px) py).
  rewrite calculateAngleWidth_Fin by (rewrite mirror_onPost; exact Hn).
  unfold angleDegrees. rewrite mirror_cosPosts. reflexivity.
Qed.

Lemma C8_mirror_symmetry_witness :
  exists a : R,
    calculateAngleWidth {| x := Fin 15; y := Fin 22 |} (Fin 0) = Fin a
    /\ calculateAngleWidth {| x := (- Fin 15)%js; y := Fin 22 |} (Fin 0) = Fin a.
Proof.
  apply (C8_mirror_symmetry 15 22 0).
  unfold onPost. intros [H _]. lra.
Defined.

(* ================================================================== *)
(** ** Further properties: distances *)
(* ================================================================== *)

Section Distances.
Local Open Scope js_scope.

Lemma sub_swap (a b : number) : b - a = - (a - b).
Proof.
  destruct a as [u | | |], b as [v | | |]; try reflexivity.
  cbn. f_equal. ring.
Qed.

Lemma mul_NInf_one : NInf * Fin 1 = NInf.
Proof.
  cbn. destruct (Req_dec_T 1 0) as [E | _]; [lra |].
  unfold Rneg. destruct (Rlt_dec 1 0) as [L | _]; [lra | reflexivity].
Qed.

Lemma mul_PInf_one : PInf * Fin 1 = PInf.
Proof.
  cbn. destruct (Req_dec_T 1 0) as [E | _]; [lra |].
  unfold Rneg. destruct (Rlt_dec 1 0) as [L | _]; [lra | reflexivity].
Qed.

Lemma Math_pow_2_neg (a : number) : Math_pow (- a) 2 = Math_pow a 2.
Proof.
  destruct a as [u | | |].
  - rewrite neg_Fin, !Math_pow_2_Fin. f_equal. unfold Rsqr. ring.
  - cbn [neg Math_pow]. rewrite mul_NInf_one, mul_PInf_one. reflexivity.
  - cbn [neg Math_pow]. rewrite mul_NInf_one, mul_PInf_one. reflexivity.
  - reflexivity.
Qed.

End Distances.

(** X1: [calculateDistance] does not depend on the order of its two points,
    whatever their coordinates are (infinities and NaN included). *)
Theorem calculateDistance_symmetric (p1 p2 : Point) :
  calculateDistance p1 p2 = calculateDistance p2 p1.
Proof.
  unfold calculateDistance.
  rewrite (sub_swap (x p1) (x p2)), (sub_swap (y p1) (y p2)).
  rewrite !Math_pow_2_neg. reflexivity.
Qed.

(** X2: The distance from a point with finite coordinates to itself is 0. *)
Theorem calculateDistance_to_itself (px py : R) :
  calculateDistance (pt px py) (pt px py) = Fin 0.
Proof.
  rewrite calculateDistance_Fin. unfold euclid, Rsqr. f_equal.
  replace ((px - px) * (px - px) + (py - py) * (py - py)) with 0 by ring.
  apply sqrt_0.
Qed.

(* ================================================================== *)
(** ** Further properties: the selected goal *)
(* ================================================================== *)

(** The comparison of the two distances is a comparison of pitch-y with
    the halfway line. *)
Lemma top_closer_iff (px py : R) :
  euclid px py 0 100 < euclid px py 0 0 <-> 50 < py.
Proof.
  unfold euclid, Rsqr. split.
  - intros H. apply sqrt_lt_0_alt in H. nra.
  - intros H. apply sqrt_lt_1_alt. split; [apply sum_squares_nonneg | nra].
Qed.

(** The angle only depends on pitch-x and on the square of the offset
    between the point and the goal line. *)
Lemma calculateAngleWidth_offset (px py g py' g' : R) :
  (g - py) * (g - py) = (g' - py') * (g' - py') ->
  calculateAngleWidth (pt px py) (Fin g) = calculateAngleWidth (pt px py') (Fin g').
Proof.
  intros H. rewrite !calculateAngleWidth_unfold, H. reflexivity.
Qed.

(** Mirroring the point about the centre line leaves the value of
    [calculateAngleWidth] unchanged, NaN on a post included. *)
Lemma calculateAngleWidth_mirror (px py g : R) :
  calculateAngleWidth (pt (- px) py) (Fin g) = calculateAngleWidth (pt px py) (Fin g).
Proof.
  rewrite !calculateAngleWidth_unfold.
  replace ((leftPostX - - px) * (rightPostX - - px))
    with ((leftPostX - px) * (rightPostX - px))
    by (unfold leftPostX, rightPostX; field).
  replace ((leftPostX - - px) * (leftPostX - - px))
    with ((rightPostX - px) * (rightPostX - px))
    by (unfold leftPostX, rightPostX; field).
  replace ((rightPostX - - px) * (rightPostX - - px))
    with ((leftPostX - px) * (leftPostX - px))
    by (unfold leftPostX, rightPostX; field).
  rewrite (Rmult_comm (sqrt ((rightPostX - px) * (rightPostX - px) + (g - py) * (g - py)))).
  reflexivity.
Qed.

Lemma euclid_mirror (px py g : R) : euclid (- px) py 0 g = euclid px py 0 g.
Proof. unfold euclid. f_equal. unfold Rsqr. ring. Qed.

Lemma euclid_end_to_end (px py : R) :
  euclid px (100 - py) 0 100 = euclid px py 0 0
  /\ euclid px (100 - py) 0 0 = euclid px py 0 100.
Proof. unfold euclid. split; f_equal; unfold Rsqr; ring. Qed.

(** X4: For every pitch point of the rendered canvas (between the
    touchlines and between the dead-ball lines) the handler's choice is a
    comparison with the halfway line: ["top"] (goal line y = 100) is stored
    exactly when pitch-y is above 50, ["bottom"] exactly when it is at most
    50, whatever pitch-x is. *)
Theorem nearestGoal_by_halfway_line (px py : R) :
  -35 <= px <= 35 -> -10 <= py <= 110 ->
  (nearestGoal (computeResult (pt px py)) = top <-> 50 < py)
  /\ (nearestGoal (computeResult (pt px py)) = bottom <-> py <= 50).
Proof.
  intros _ _. cbn [computeResult nearestGoal]. split.
  - rewrite selectGoal_top. apply top_closer_iff.
  - rewrite selectGoal_bottom. split.
    + intros H. apply Rnot_lt_le. intros L.
      apply (proj2 (top_closer_iff px py)) in L. lra.
    + intros H. apply Rnot_lt_le. intros L.
      apply (proj1 (top_closer_iff px py)) in L. lra.
Qed.

Lemma nearestGoal_by_halfway_line_witness :
  nearestGoal (computeResult (pt 10 60)) = top
  /\ nearestGoal (computeResult (pt 10 40)) = bottom.
Proof.
  split.
  - apply (proj1 (nearestGoal_by_halfway_line 10 60 ltac:(lra) ltac:(lra))). lra.
  - apply (proj2 (nearestGoal_by_halfway_line 10 40 ltac:(lra) ltac:(lra))). lra.
Defined.

(** X5: The stored distance, computed with [Math.min], is the distance to the
    midpoint of the goal line that the stored goal name stands for: the two
    independent computations of the handler agree, ties included. *)
Theorem distance_is_to_selected_goal (px py : R) :
  distanceToNearestGoal (computeResult (pt px py)) =
  calculateDistance (pt px py)
    {| x := Fin 0; y := goalLineY (nearestGoal (computeResult (pt px py))) |}.
Proof.
  rewrite computeResult_Fin. cbn [distanceToNearestGoal nearestGoal].
  rewrite selectGoal_Fin.
  destruct (Rltb (euclid px py 0 100) (euclid px py 0 0)) eqn:E; cbn [goalLineY].
  - apply Rltb_true in E. rewrite distanceToTop_Fin. f_equal.
    apply Rmin_left. lra.
  - apply Rltb_false in E. rewrite distanceToBottom_Fin. f_equal.
    apply Rmin_right. exact E.
Qed.

(** X6: The two ends of the pitch are treated alike: reflecting a point of
    the rendered canvas about the halfway line ([y] to [100 - y]) keeps the
    stored distance and the stored angle, and the reflected point gets
    ["top"] exactly when [y < 50]. *)
Theorem computeResult_end_to_end (px py : R) :
  -35 <= px <= 35 -> -10 <= py <= 110 ->
  distanceToNearestGoal (computeResult (pt px (100 - py))) =
    distanceToNearestGoal (computeResult (pt px py))
  /\ angleWidth (computeResult (pt px (100 - py))) =
     angleWidth (computeResult (pt px py))
  /\ (nearestGoal (computeResult (pt px (100 - py))) = top <-> py < 50).
Proof.
  intros _ _. rewrite !computeResult_Fin.
  cbn [distanceToNearestGoal angleWidth nearestGoal].
  destruct (euclid_end_to_end px py) as [Et Eb].
  split; [| split].
  - rewrite Et, Eb. f_equal. apply Rmin_comm.
  - rewrite !selectGoal_Fin.
    destruct (Rltb (euclid px (100 - py) 0 100) (euclid px (100 - py) 0 0)) eqn:E1;
    destruct (Rltb (euclid px py 0 100) (euclid px py 0 0)) eqn:E2;
      cbn [goalLineY]; unfold PITCH_LENGTH.
    + apply Rltb_true, top_closer_iff in E1. apply Rltb_true, top_closer_iff in E2. lra.
    + apply calculateAngleWidth_offset. ring.
    + apply calculateAngleWidth_offset. ring.
    + apply Rltb_false in E1. apply Rltb_false in E2.
      assert (H1 : ~ 50 < 100 - py)
        by (intros L; apply (proj2 (top_closer_iff px (100 - py))) in L; lra).
      assert (H2 : ~ 50 < py)
        by (intros L; apply (proj2 (top_closer_iff px py)) in L; lra).
      assert (py = 50) by lra. subst py.
      apply calculateAngleWidth_offset. ring.
  - rewrite selectGoal_top, top_closer_iff. split; intros; lra.
Qed.

Lemma computeResult_end_to_end_witness :
  distanceToNearestGoal (computeResult (pt 10 (100 - 30))) =
    distanceToNearestGoal (computeResult (pt 10 30))
  /\ angleWidth (computeResult (pt 10 (100 - 30))) =
     angleWidth (computeResult (pt 10 30))
  /\ nearestGoal (computeResult (pt 10 (100 - 30))) = top.
Proof.
  destruct (computeResult_end_to_end 10 30 ltac:(lra) ltac:(lra)) as [Hd [Ha Hg]].
  repeat split; [exact Hd | exact Ha | apply Hg; lra].
Defined.

(** X7: The two sides of the pitch are treated alike: negating pitch-x of a
    finite point keeps the stored goal, distance and angle (a NaN angle on
    a post included); only the selected point is mirrored. *)
Theorem computeResult_left_right (px py : R) :
  computeResult (pt (- px) py) =
  {| distanceToNearestGoal := distanceToNearestGoal (computeResult (pt px py));
     angleWidth := angleWidth (computeResult (pt px py));
     selectedPoint := pt (- px) py;
     nearestGoal := nearestGoal (computeResult (pt px py)) |}.
Proof.
  rewrite !computeResult_Fin.
  cbn [distanceToNearestGoal angleWidth nearestGoal].
  rewrite !selectGoal_Fin, !euclid_mirror.
  destruct (Rltb (euclid px py 0 100) (euclid px py 0 0));
    cbn [goalLineY]; unfold PITCH_LENGTH;
    rewrite calculateAngleWidth_mirror; reflexivity.
Qed.

(* ================================================================== *)
(** ** Further properties: the angle *)
(* ================================================================== *)

(** Cauchy-Schwarz for the two point-to-post vectors [(a, t)] and [(b, t)]:
    the squared product of the magnitudes exceeds the squared dot product
    by [t² (a - b)²]. *)
Lemma posts_cauchy_schwarz (a b t : R) :
  (sqrt (a * a + t * t) * sqrt (b * b + t * t)) *
  (sqrt (a * a + t * t) * sqrt (b * b + t * t)) -
  (a * b + t * t) * (a * b + t * t) = t * t * ((a - b) * (a - b))
  /\ 0 <= sqrt (a * a + t * t) * sqrt (b * b + t * t).
Proof.
  split.
  - replace (sqrt (a * a + t * t) * sqrt (b * b + t * t) *
             (sqrt (a * a + t * t) * sqrt (b * b + t * t)))
      with ((sqrt (a * a + t * t) * sqrt (a * a + t * t)) *
            (sqrt (b * b + t * t) * sqrt (b * b + t * t))) by ring.
    rewrite !sqrt_sqrt by apply sum_squares_nonneg. ring.
  - apply Rmult_le_pos; apply sqrt_pos.
Qed.

Lemma ratio_bounds_strict (n d : R) : 0 < d -> n * n < d * d -> -1 < n / d < 1.
Proof.
  intros Hd Hsq.
  assert (Hn : - d < n < d) by nra.
  split.
  - apply Rmult_lt_reg_r with d; [exact Hd |].
    unfold Rdiv. rewrite Rmult_assoc, Rinv_l by lra. lra.
  - apply Rmult_lt_reg_r with d; [exact Hd |].
    unfold Rdiv. rewrite Rmult_assoc, Rinv_l by lra. lra.
Qed.

Lemma post_gap : leftPostX - rightPostX = - (56 / 10).
Proof. unfold leftPostX, rightPostX. field. Qed.

(** Off the goal line the exact cosine is strictly inside [[-1, 1]]. *)
Lemma cosPosts_strict (px py g : R) :
  py <> g -> -1 < cosPosts px py g < 1.
Proof.
  intros Hy. unfold cosPosts.
  destruct (posts_cauchy_schwarz (leftPostX - px) (rightPostX - px) (g - py))
    as [Hcs Hpos].
  assert (Hn : ~ onPost px py g) by (intros [E _]; contradiction).
  pose proof (magnitudes_nonzero px py g Hn) as Hnz.
  apply ratio_bounds_strict; [lra |].
  assert (0 < (g - py) * (g - py) *
              ((leftPostX - px - (rightPostX - px)) * (leftPostX - px - (rightPostX - px)))).
  { apply Rmult_lt_0_compat.
    - assert (g - py <> 0) by lra. nra.
    - replace (leftPostX - px - (rightPostX - px)) with (- (56 / 10))
        by (rewrite <- post_gap; ring).
      lra. }
  lra.
Qed.

Lemma degrees_factor_pos : 0 < 180 / PI.
Proof. apply Rdiv_lt_0_compat; [lra | apply PI_RGT_0]. Qed.

(** X8: The angle only depends on pitch-x and on the unsigned distance between
    the point and the goal line: it is the same in front of and behind the
    goal line, and the same for both goal lines. *)
Theorem calculateAngleWidth_by_distance_to_line (px py g py' g' : R) :
  Rabs (g - py) = Rabs (g' - py') ->
  calculateAngleWidth (pt px py) (Fin g) = calculateAngleWidth (pt px py') (Fin g').
Proof.
  intros H. apply calculateAngleWidth_offset.
  change ((g - py)² = (g' - py')²).
  rewrite (Rsqr_abs (g - py)), (Rsqr_abs (g' - py')), H. reflexivity.
Qed.

Lemma calculateAngleWidth_by_distance_to_line_witness :
  calculateAngleWidth (pt 10 (-5)) (Fin 0) = calculateAngleWidth (pt 10 95) (Fin 100).
Proof.
  apply (calculateAngleWidth_by_distance_to_line 10 (-5) 0 95 100).
  replace (0 - -5) with 5 by lra. replace (100 - 95) with 5 by lra.
  reflexivity.
Defined.

(** X10: From every point of the rendered canvas that is at least a
    quarter of a metre (one pixel of the display) away from the goal line,
    in front of it or behind it, the posts are seen under an angle strictly
    between 0 and 180 degrees. *)
Theorem angle_strictly_inside_off_goal_line (px py g : R) :
  -35 <= px <= 35 -> 1 / 4 <= Rabs (g - py) <= 120 ->
  exists a : R,
    calculateAngleWidth (pt px py) (Fin g) = Fin a /\ 0 < a < 180.
Proof.
  intros _ [Hy _]. exists (angleDegrees px py g).
  assert (Hne : py <> g).
  { intros E. subst py. replace (g - g) with 0 in Hy by ring.
    rewrite Rabs_R0 in Hy. lra. }
  assert (Hn : ~ onPost px py g) by (intros [E _]; contradiction).
  split; [apply calculateAngleWidth_Fin; exact Hn |].
  pose proof (cosPosts_strict px py g Hne) as Hs.
  unfold angleDegrees. rewrite clamp_id by lra.
  destruct (acos_bound_lt (cosPosts px py g) Hs) as [H0 H1].
  pose proof degrees_factor_pos as Hk.
  split.
  - apply Rmult_lt_0_compat; assumption.
  - apply Rlt_le_trans with (PI * (180 / PI)).
    + apply Rmult_lt_compat_r; assumption.
    + rewrite degrees_of_PI. apply Rle_refl.
Qed.

Lemma angle_strictly_inside_off_goal_line_witness :
  exists a : R,
    calculateAngleWidth (pt 35 110) (Fin 100) = Fin a /\ 0 < a < 180.
Proof.
  apply (angle_strictly_inside_off_goal_line 35 110 100); [lra |].
  replace (100 - 110) with (- (10)) by lra.
  rewrite Rabs_Ropp, Rabs_pos_eq by lra. lra.
Defined.

(** On the goal line itself both vectors are horizontal. *)
Lemma cosPosts_on_goal_line (px g : R) :
  cosPosts px g g =
  ((leftPostX - px) * (rightPostX - px)) /
  (Rabs (leftPostX - px) * Rabs (rightPostX - px)).
Proof.
  unfold cosPosts.
  replace (g - g) with 0 by ring.
  rewrite Rmult_0_l, !Rplus_0_r.
  change ((leftPostX - px) * (leftPostX - px)) with ((leftPostX - px)²).
  change ((rightPostX - px) * (rightPostX - px)) with ((rightPostX - px)²).
  rewrite !sqrt_Rsqr_abs. reflexivity.
Qed.

(** X11: From a point of the goal line strictly between the posts the two
    vectors point in opposite directions: the angle width is 180 degrees. *)
Theorem angle_between_posts_on_goal_line (px g : R) :
  leftPostX < px < rightPostX ->
  calculateAngleWidth (pt px g) (Fin g) = Fin 180.
Proof.
  intros [Hl Hr].
  assert (Hn : ~ onPost px g g) by (intros [_ [E | E]]; lra).
  rewrite calculateAngleWidth_Fin by exact Hn. f_equal.
  unfold angleDegrees. rewrite cosPosts_on_goal_line.
  rewrite (Rabs_left (leftPostX - px)) by lra.
  rewrite (Rabs_pos_eq (rightPostX - px)) by lra.
  replace ((leftPostX - px) * (rightPostX - px) /
           (- (leftPostX - px) * (rightPostX - px))) with (-1)
    by (field; split; lra).
  rewrite clamp_id by lra.
  rewrite acos_minus_1. apply degrees_of_PI.
Qed.

Lemma angle_between_posts_on_goal_line_witness :
  calculateAngleWidth (pt 1 100) (Fin 100) = Fin 180.
Proof.
  apply (angle_between_posts_on_goal_line 1 100).
  unfold leftPostX, rightPostX. lra.
Defined.

(** X12: From a point of the goal line outside the posts and between the
    touchlines the two vectors point in the same direction: the angle width
    is 0 degrees. *)
Theorem angle_outside_posts_on_goal_line (px g : R) :
  -35 <= px < leftPostX \/ rightPostX < px <= 35 ->
  calculateAngleWidth (pt px g) (Fin g) = Fin 0.
Proof.
  intros H.
  assert (Hlr : leftPostX < rightPostX) by (unfold leftPostX, rightPostX; lra).
  assert (Hn : ~ onPost px g g) by (intros [_ [E | E]]; lra).
  rewrite calculateAngleWidth_Fin by exact Hn. f_equal.
  unfold angleDegrees. rewrite cosPosts_on_goal_line.
  assert (Hc : (leftPostX - px) * (rightPostX - px) /
               (Rabs (leftPostX - px) * Rabs (rightPostX - px)) = 1).
  { destruct H as [H | H].
    - rewrite !Rabs_pos_eq by lra. field. split; lra.
    - rewrite !Rabs_left by lra. field. split; lra. }
  rewrite Hc, clamp_id by lra.
  rewrite acos_1. ring.
Qed.

Lemma angle_outside_posts_on_goal_line_witness :
  calculateAngleWidth (pt 20 0) (Fin 0) = Fin 0.
Proof.
  apply (angle_outside_posts_on_goal_line 20 0).
  right. unfold rightPostX. lra.
Defined.

(* ================================================================== *)
(** ** Further properties: clicks and the rendered marker *)
(* ================================================================== *)

(** X13: A click replaces the stored result without reading it: after two
    clicks the state is the one the second click alone produces. *)
Theorem handlePitchClick_overwrites (e1 e2 : MouseEvent) (s : App) :
  handlePitchClick e2 (handlePitchClick e1 s) = handlePitchClick e2 s.
Proof.
  rewrite !handlePitchClick_split.
  destruct s as [c [rect |]]; reflexivity.
Qed.

(** X14: The conversion written out in the click handler is the one of
    [svgToPitch]: with a bounding rectangle, the handler stores the result
    computed for [svgToPitch(clientX, clientY)], for all coordinate values. *)
Theorem handlePitchClick_agrees_with_svgToPitch
  (e : MouseEvent) (c : option CalculationResult) (rect : DOMRect) :
  calculation (handlePitchClick e (mkApp c (Some rect))) =
  Some (computeResult (svgToPitch (mkApp c (Some rect)) (clientX e) (clientY e))).
Proof.
  rewrite handlePitchClick_split. reflexivity.
Qed.

(** X15: After a click with finite coordinates the marker is drawn where the
    user clicked: its centre, in SVG coordinates, is the click position
    relative to the corner of the bounding rectangle. *)
Theorem marker_is_drawn_at_click
  (c : option CalculationResult) (l t cx cy : R) :
  selectedPointMarker
    (handlePitchClick (mkEvent (Fin cx) (Fin cy))
       (mkApp c (Some (mkRect (Fin l) (Fin t))))) =
  Some (pt (cx - l) (cy - t)).
Proof.
  unfold selectedPointMarker. rewrite handlePitchClick_Fin.
  cbn [computeResult selectedPoint]. rewrite pitchToSvg_Fin.
  cbn [pt x y]. f_equal. apply pt_ext; field.
Qed.

(** X16: Clicking exactly on the centre of the drawn marker selects the same
    pitch point again, so the state does not change. *)
Theorem click_on_marker_keeps_state (l t px py : R) :
  exists mx my : R,
    selectedPointMarker
      (mkApp (Some (computeResult (pt px py))) (Some (mkRect (Fin l) (Fin t)))) =
    Some (pt mx my)
    /\ handlePitchClick (mkEvent (Fin (l + mx)) (Fin (t + my)))
         (mkApp (Some (computeResult (pt px py))) (Some (mkRect (Fin l) (Fin t)))) =
       mkApp (Some (computeResult (pt px py))) (Some (mkRect (Fin l) (Fin t))).
Proof.
  exists ((px + 70 / 2) * 4), ((py + 10) * 4). split.
  - unfold selectedPointMarker. cbn [calculation computeResult selectedPoint].
    rewrite pitchToSvg_Fin. reflexivity.
  - rewrite handlePitchClick_split. cbn [svgRef].
    rewrite clickPoint_Fin.
    replace (pt ((l + (px + 70 / 2) * 4 - l) / 4 - 70 / 2)
                ((t + (py + 10) * 4 - t) / 4 - 10))
      with (pt px py) by (apply pt_ext; field).
    reflexivity.
Qed.

Lemma canvas_size : svgWidth = Fin 280 /\ svgHeight = Fin 480.
Proof.
  unfold svgWidth, svgHeight, PITCH_WIDTH, PITCH_LENGTH, IN_GOAL_DEPTH, SCALE.
  autorewrite with js. split; f_equal; lra.
Qed.

(** X17: A click inside the canvas ([svgWidth] by [svgHeight], placed at the
    bounding rectangle's corner) selects a point between the touchlines and
    between the two dead-ball lines, and the stored distance is at most
    the distance from a corner of the halfway line to a goal midpoint. *)
Theorem click_inside_canvas_bounds
  (c : option CalculationResult) (l t cx cy : R) :
  0 <= cx - l <= 280 -> 0 <= cy - t <= 480 ->
  svgWidth = Fin 280 /\ svgHeight = Fin 480
  /\ exists px py d : R,
       option_map selectedPoint
         (calculation (handlePitchClick (mkEvent (Fin cx) (Fin cy))
                         (mkApp c (Some (mkRect (Fin l) (Fin t)))))) =
       Some (pt px py)
       /\ -35 <= px <= 35 /\ -10 <= py <= 110
       /\ option_map distanceToNearestGoal
            (calculation (handlePitchClick (mkEvent (Fin cx) (Fin cy))
                            (mkApp c (Some (mkRect (Fin l) (Fin t)))))) =
          Some (Fin d)
       /\ 0 <= d <= sqrt (35 * 35 + 50 * 50).
Proof.
  intros Hx Hy.
  destruct canvas_size as [Hw Hh]. split; [exact Hw | split; [exact Hh |]].
  set (px := (cx - l) / 4 - 70 / 2). set (py := (cy - t) / 4 - 10).
  assert (Bx : -35 <= px <= 35) by (unfold px; lra).
  assert (By : -10 <= py <= 110) by (unfold py; lra).
  exists px, py, (Rmin (euclid px py 0 100) (euclid px py 0 0)).
  rewrite handlePitchClick_Fin. fold px py. rewrite computeResult_Fin.
  cbn [option_map selectedPoint distanceToNearestGoal].
  repeat split; try lra.
  - apply Rmin_glb; apply sqrt_pos.
  - destruct (Rle_dec py 50) as [Lo | Hi].
    + apply Rle_trans with (euclid px py 0 0); [apply Rmin_r |].
      unfold euclid, Rsqr. apply sqrt_le_1_alt. nra.
    + apply Rle_trans with (euclid px py 0 100); [apply Rmin_l |].
      unfold euclid, Rsqr. apply sqrt_le_1_alt. nra.
Qed.

Lemma click_inside_canvas_bounds_witness :
  exists px py d : R,
    option_map selectedPoint
      (calculation (handlePitchClick (mkEvent (Fin 300) (Fin 500))
                      (mkApp None (Some (mkRect (Fin 20) (Fin 20)))))) =
    Some (pt px py)
    /\ -35 <= px <= 35 /\ -10 <= py <= 110
    /\ option_map distanceToNearestGoal
         (calculation (handlePitchClick (mkEvent (Fin 300) (Fin 500))
                         (mkApp None (Some (mkRect (Fin 20) (Fin 20)))))) =
       Some (Fin d)
    /\ 0 <= d <= sqrt (35 * 35 + 50 * 50).
Proof.
  apply (click_inside_canvas_bounds None 20 20 300 500); lra.
Defined.

(** X18: The bars drawn as goal posts are where [calculateAngleWidth] takes the
    posts to be: for each goal line, the bar starts at the SVG x of the left
    post, ends at the SVG x of the right post, and is centred on the SVG y
    of the goal line. *)
Theorem goal_post_bars_match_posts (g : GoalName) :
  let bar := match g with bottom => goalPostsRectFirst | top => goalPostsRectSecond end in
  let leftPost := {| x := (- GOAL_POST_WIDTH / Fin 2)%js; y := goalLineY g |} in
  let rightPost := {| x := (GOAL_POST_WIDTH / Fin 2)%js; y := goalLineY g |} in
  rect_x bar = x (pitchToSvg leftPost)
  /\ (rect_x bar + rect_width bar)%js = x (pitchToSvg rightPost)
  /\ (rect_y bar + rect_height bar / Fin 2)%js = y (pitchToSvg leftPost).
Proof.
  destruct post_coordinates as [Hl Hr].
  destruct g; cbn zeta; rewrite Hl, Hr;
    unfold goalPostsRectFirst, goalPostsRectSecond, pitchToSvg, goalLineY,
      GOAL_POST_WIDTH, PITCH_WIDTH, PITCH_LENGTH, IN_GOAL_DEPTH, SCALE,
      leftPostX, rightPostX;
    cbn [rect_x rect_y rect_width rect_height x y];
    rewrite !div_Fin by lra; autorewrite with js;
    repeat split; f_equal; field.
Qed.
